(* Verification of the SM-2 scheduler and review session of
   bashkir_memory_palace_enhanced_app/modules/spaced_repetition.py.

   Modelling choices:
   - Python floats (ease factors) are modelled as exact rationals [Q].
   - Timestamps (ISO strings parsed by datetime.fromisoformat) are modelled
     as integers [Z] counting seconds; [None] stays [None].
   - [self.items], a Python dict, keeps insertion order, which decides the
     order of ties in get_due_items; it is modelled as an association list
     in insertion order with unique keys.
   - datetime.now() is an explicit argument of each operation.
   - The optional autosave to [data_file] is a file effect that does not
     touch the in-memory state and is left out. *)

From Stdlib Require Import ZArith QArith Qround Qminmax List String Bool Lia Sorting.Permutation Sorting.Sorted.
Import ListNotations.
Open Scope string_scope.
Open Scope list_scope.
Open Scope Z_scope.

(** * Python helpers *)

(** Python's [max(a, b)]: returns [b] only when [b > a], else [a]. *)
Definition py_max (a b : Q) : Q := if Qle_bool b a then a else b.

(** Python's [round(x)] on a number: round half to even. *)
Definition py_round (x : Q) : Z :=
  let f := Qfloor x in
  let frac := Qminus x (inject_Z f) in
  match Qcompare frac (1 # 2) with
  | Lt => f
  | Gt => f + 1
  | Eq => if Z.even f then f else f + 1
  end.

(** Python's [round(x, n)] with [n] decimal digits (on the exact value). *)
Definition py_round_digits (x : Q) (n : nat) : Q :=
  let p := Z.pow 10 (Z.of_nat n) in
  Qmake (py_round (Qmult x (inject_Z p))) (Z.to_pos p).

(** Python's slice [xs[:l]]. *)
Definition py_take {A} (l : Z) (xs : list A) : list A :=
  if Z.leb 0 l then firstn (Z.to_nat l) xs
  else firstn (Z.to_nat (Z.of_nat (List.length xs) + l)) xs.

(** * ReviewItem *)

Record ReviewItem := mkItem {
  word_id : string;
  bashkir : string;
  english : string;
  ease_factor : Q;
  interval : Z;
  repetitions : Z;
  next_review : option Z;
  last_review : option Z;
  total_reviews : Z;
  correct_count : Z;
  incorrect_count : Z
}.

Definition MIN_EASE_FACTOR : Q := 13 # 10.
Definition QUALITY_THRESHOLD : Z := 3.
Definition DAY : Z := 86400.

(** The dataclass defaults, with [next_review] given as add_word does. *)
Definition new_item (wid b e : string) (nr : option Z) : ReviewItem :=
  mkItem wid b e (5 # 2) 0 0 nr None 0 0 0.

(** * The dict [self.items] *)

Definition store := list (string * ReviewItem).

Fixpoint lookup (k : string) (s : store) : option ReviewItem :=
  match s with
  | [] => None
  | (k', v) :: s' => if String.eqb k k' then Some v else lookup k s'
  end.

(** [self.items[k] = v] for a key already present: the value changes in
    place, the insertion order is kept. *)
Fixpoint update (k : string) (v : ReviewItem) (s : store) : store :=
  match s with
  | [] => []
  | (k', v') :: s' => if String.eqb k k' then (k', v) :: s' else (k', v') :: update k v s'
  end.

(** * SpacedRepetitionSystem *)

(** [add_word]: insert a fresh item (next_review = now) unless tracked. *)
Definition add_word (now : Z) (wid b e : string) (s : store) : ReviewItem * store :=
  match lookup wid s with
  | Some it => (it, s)
  | None => let it := new_item wid b e (Some now) in (it, s ++ [(wid, it)])
  end.

Inductive error := ValueError_not_found (wid : string).

(** The ease-factor line of [review], with the quality already clamped. *)
Definition ease_update (ef : Q) (q : Z) : Q :=
  py_max MIN_EASE_FACTOR
    (ef + ((1 # 10) - inject_Z (5 - q) * ((8 # 100) + inject_Z (5 - q) * (2 # 100))))%Q.

Definition clamp_quality (q : Z) : Z := Z.max 0 (Z.min 5 q).

(** The body of [review] on the item found in the dict; [t_last] and
    [t_next] are the two readings of datetime.now(). *)
Definition review_item (t_last t_next : Z) (quality : Z) (it : ReviewItem) : ReviewItem :=
  let q := clamp_quality quality in
  let tot := total_reviews it + 1 in
  let '(corr, incorr, reps, ivl) :=
    if Z.leb QUALITY_THRESHOLD q then
      let ivl :=
        if Z.eqb (repetitions it) 0 then 1
        else if Z.eqb (repetitions it) 1 then 6
        else py_round (inject_Z (interval it) * ease_factor it)%Q in
      (correct_count it + 1, incorrect_count it, repetitions it + 1, ivl)
    else (correct_count it, incorrect_count it + 1, 0, 1) in
  let ef := ease_update (ease_factor it) q in
  mkItem (word_id it) (bashkir it) (english it) ef ivl reps
         (Some (t_next + ivl * DAY)) (Some t_last) tot corr incorr.

(** [review(word_id, quality)]: raises ValueError for an untracked id,
    otherwise mutates the item and returns (interval, ease, next_review). *)
Definition review (t_last t_next : Z) (wid : string) (quality : Z) (s : store)
  : (error + ((Z * Q * Z) * store))%type :=
  match lookup wid s with
  | None => inl (ValueError_not_found wid)
  | Some it =>
      let it' := review_item t_last t_next quality it in
      inr ((interval it', ease_factor it', t_next + interval it' * DAY),
           update wid it' s)
  end.

(** ** get_due_items *)

(** [due.sort(key=lambda x: x[1])]: Python's sort is stable, so it agrees
    with this stable insertion sort (an element goes before the first
    element whose key is not smaller). *)
Fixpoint insert_by_key {A} (x : A * Z) (l : list (A * Z)) : list (A * Z) :=
  match l with
  | [] => [x]
  | y :: l' => if Z.leb (snd x) (snd y) then x :: l else y :: insert_by_key x l'
  end.

Fixpoint sort_by_key {A} (l : list (A * Z)) : list (A * Z) :=
  match l with
  | [] => []
  | x :: l' => insert_by_key x (sort_by_key l')
  end.

(** The loop over [self.items.values()] building [due]. *)
Fixpoint collect_due (now : Z) (s : store) : list (ReviewItem * Z) :=
  match s with
  | [] => []
  | (_, it) :: s' =>
      match next_review it with
      | None => (it, now) :: collect_due now s'
      | Some nr => if Z.leb nr now then (it, nr) :: collect_due now s'
                   else collect_due now s'
      end
  end.

(** [get_due_items(limit)]; [if limit:] is Python truthiness, so a limit
    of 0 counts as no limit. *)
Definition get_due_items (now : Z) (limit : option Z) (s : store) : list ReviewItem :=
  let items := map fst (sort_by_key (collect_due now s)) in
  match limit with
  | Some l => if Z.eqb l 0 then items else py_take l items
  | None => items
  end.

(** ** get_new_items *)

(** A vocabulary entry: [word.get('id', word.get('bashkir'))] is its key;
    start_session indexes ['bashkir'] and ['english'], so they are present. *)
Record word := mkWord { w_id : option string; w_bashkir : string; w_english : string }.

Definition word_key (w : word) : string :=
  match w_id w with Some i => i | None => w_bashkir w end.

(** The loop of [get_new_items]; [n] is [len(new_words)]. *)
Fixpoint get_new_items_loop (s : store) (ws : list word) (n limit : Z) : list word :=
  match ws with
  | [] => []
  | w :: ws' =>
      match lookup (word_key w) s with
      | Some _ => get_new_items_loop s ws' n limit
      | None => if Z.leb limit (n + 1) then [w]
                else w :: get_new_items_loop s ws' (n + 1) limit
      end
  end.

Definition get_new_items (s : store) (ws : list word) (limit : Z) : list word :=
  get_new_items_loop s ws 0 limit.

(** ** get_statistics *)

Record Statistics := mkStats {
  total_words : Z; mastered : Z; learning : Z; new : Z; due_today : Z;
  average_ease : Q; retention_rate : Q
}.

(** The accumulators of the loop of [get_statistics]:
    (mastered, learning, due_today, total_correct, total_reviews, ease_sum). *)
Fixpoint statistics_loop (now : Z) (s : store) (acc : Z * Z * Z * Z * Z * Q)
  : Z * Z * Z * Z * Z * Q :=
  match s with
  | [] => acc
  | (_, it) :: s' =>
      let '(m, l, d, tc, tr, es) := acc in
      let es := (es + ease_factor it)%Q in
      let tc := tc + correct_count it in
      let tr := tr + total_reviews it in
      let '(m, l) :=
        if Z.leb 21 (interval it) then (m + 1, l)
        else if Z.ltb 0 (total_reviews it) then (m, l + 1) else (m, l) in
      (* [if item.next_review:] then compare with now *)
      let d := match next_review it with
               | Some nr => if Z.leb nr now then d + 1 else d
               | None => d
               end in
      statistics_loop now s' (m, l, d, tc, tr, es)
  end.

Definition get_statistics (now : Z) (s : store) : Statistics :=
  match s with
  | [] => mkStats 0 0 0 0 0 0 0
  | _ =>
      let '(m, l, d, tc, tr, es) := statistics_loop now s (0, 0, 0, 0, 0, 0%Q) in
      let n := Z.of_nat (List.length s) in
      mkStats n m l (n - m - l) d
        (py_round_digits (es / inject_Z n) 2)
        (if Z.ltb 0 tr then py_round_digits (inject_Z tc / inject_Z tr * 100) 1 else 0)
  end.

(** ** The convenience function [calculate_next_review] *)

Definition calculate_next_review (quality : Z) (current_ease : Q)
    (current_interval repetitions : Z) : Z * Q :=
  if Z.ltb quality 3 then (1, py_max (13 # 10) (current_ease - (2 # 10))%Q)
  else
    let new_interval :=
      if Z.eqb repetitions 0 then 1
      else if Z.eqb repetitions 1 then 6
      else py_round (inject_Z current_interval * current_ease)%Q in
    (new_interval, ease_update current_ease quality).

(** * ReviewSession *)

(** [session_items] holds references to the ReviewItem objects of the
    scheduler's dict; since [review] mutates those objects in place, a
    reference is modelled by the item's [word_id], which [review] never
    changes and which is its key in the dict. *)
Record Session := mkSession {
  srs : store;
  words_data : list (string * word);
  session_items : list string;
  current_index : Z;
  stats_total : Z;
  stats_correct : Z;
  stats_incorrect : Z
}.

(** [d[k] = v] on an insertion-ordered dict. *)
Fixpoint dict_set {V} (k : string) (v : V) (d : list (string * V)) : list (string * V) :=
  match d with
  | [] => [(k, v)]
  | (k', v') :: d' => if String.eqb k k' then (k', v) :: d' else (k', v') :: dict_set k v d'
  end.

(** [ReviewSession.__init__]: [{key(w): w for w in words_data}]. *)
Definition init_session (s : store) (ws : list word) : Session :=
  mkSession s (fold_left (fun d w => dict_set (word_key w) w d) ws []) [] 0 0 0 0.

(** The loop of [start_session] adding each new word to the scheduler and
    appending [self.srs.items[word_id]] to the queue. *)
Fixpoint add_new_words (now : Z) (ws : list word) (s : store) (queue : list string)
  : store * list string :=
  match ws with
  | [] => (s, queue)
  | w :: ws' =>
      let '(_, s') := add_word now (word_key w) (w_bashkir w) (w_english w) s in
      let q' := match lookup (word_key w) s' with
                | Some it => queue ++ [word_id it]
                | None => queue
                end in
      add_new_words now ws' s' q'
  end.

Definition start_session (now : Z) (new_words review_words : Z) (ses : Session)
  : bool * Session :=
  let due_items := get_due_items now (Some review_words) (srs ses) in
  let new_word_data := get_new_items (srs ses) (map snd (words_data ses)) new_words in
  let '(s', queue) := add_new_words now new_word_data (srs ses) (map word_id due_items) in
  let ses' := mkSession s' (words_data ses) queue 0 (Z.of_nat (List.length queue)) 0 0 in
  (Z.ltb 0 (Z.of_nat (List.length queue)), ses').

(** The dict returned by [submit_answer]. *)
Inductive submit_result :=
| NoMoreItems
| Answered (result_correct : bool) (new_interval : Z) (new_ease : Q)
           (next_rev : Z) (progress : Z * Z).

Definition in_progress (ses : Session) : bool :=
  Z.ltb (current_index ses) (Z.of_nat (List.length (session_items ses))).

Definition submit_answer (t_last t_next : Z) (quality : Z) (ses : Session)
  : (error + (submit_result * Session))%type :=
  if negb (in_progress ses) then inr (NoMoreItems, ses)
  else
    let wid := nth (Z.to_nat (current_index ses)) (session_items ses) EmptyString in
    match review t_last t_next wid quality (srs ses) with
    | inl e => inl e
    | inr ((ivl, ef, nr), s') =>
        let ok := Z.leb QUALITY_THRESHOLD quality in
        let ci := current_index ses + 1 in
        let ses' := mkSession s' (words_data ses) (session_items ses) ci (stats_total ses)
                      (if ok then stats_correct ses + 1 else stats_correct ses)
                      (if ok then stats_incorrect ses else stats_incorrect ses + 1) in
        inr (Answered ok ivl ef nr (ci, Z.of_nat (List.length (session_items ses))), ses')
    end.

Record Summary := mkSummary {
  completed : Z; remaining : Z; correct : Z; incorrect : Z; accuracy : Q
}.

Definition get_session_summary (ses : Session) : Summary :=
  mkSummary (current_index ses)
    (Z.of_nat (List.length (session_items ses)) - current_index ses)
    (stats_correct ses) (stats_incorrect ses)
    (if Z.ltb 0 (current_index ses)
     then py_round_digits (inject_Z (stats_correct ses) / inject_Z (current_index ses) * 100) 1
     else 0%Q).

(** * Call sequences on the scheduler *)

Inductive op :=
| AddItem (now : Z) (wid b e : string)
| Review (t_last t_next : Z) (wid : string) (quality : Z).

(** One call; a raised ValueError leaves the dict as it was. *)
Definition exec_op (o : op) (s : store) : store :=
  match o with
  | AddItem now wid b e => snd (add_word now wid b e s)
  | Review t1 t2 wid q =>
      match review t1 t2 wid q s with inl _ => s | inr (_, s') => s' end
  end.

Definition run (ops : list op) (s : store) : store := fold_left (fun s o => exec_op o s) ops s.

(** * Further operations *)

(** [get_item_status(word_id)]. *)
Definition get_item_status (wid : string) (s : store) : string :=
  match lookup wid s with
  | None => "unseen"
  | Some it =>
      if Z.eqb (total_reviews it) 0 then "new"
      else if Z.leb 21 (interval it) then "mastered"
      else if Z.leb 7 (interval it) then "reviewing"
      else "learning"
  end.

(** [dict.get(k)] on an insertion-ordered dict. *)
Fixpoint dict_get {V} (k : string) (d : list (string * V)) : option V :=
  match d with
  | [] => None
  | (k', v) :: d' => if String.eqb k k' then Some v else dict_get k d'
  end.

(** [get_current_item()]: the queued item (the live object of the
    scheduler's dict) with its vocabulary entry, or the default dict
    {'bashkir', 'english'}, which has no 'id' key.  A queued id is always
    tracked (lemma [session_invariant]), so the [None] of the inner match
    is never reached. *)
Definition get_current_item (ses : Session) : option (ReviewItem * word) :=
  if negb (in_progress ses) then None
  else
    let wid := nth (Z.to_nat (current_index ses)) (session_items ses) EmptyString in
    match lookup wid (srs ses) with
    | Some it =>
        Some (it, match dict_get (word_id it) (words_data ses) with
                  | Some w => w
                  | None => mkWord None (bashkir it) (english it)
                  end)
    | None => None
    end.

(** A sequence of [submit_answer] calls, each with its two clock readings
    and its quality; a raised error stops the sequence. *)
Fixpoint submit_all (answers : list (Z * Z * Z)) (ses : Session)
  : (error + Session)%type :=
  match answers with
  | [] => inr ses
  | (t1, t2, q) :: rest =>
      match submit_answer t1 t2 q ses with
      | inl e => inl e
      | inr (_, ses') => submit_all rest ses'
      end
  end.

(** * Invariants *)

(** Scheduling state of an item reached by add_word and review calls. *)
Definition item_ok (it : ReviewItem) : Prop :=
  ((13 # 10) <= ease_factor it)%Q /\
  0 <= repetitions it /\ 0 <= interval it /\ 0 <= total_reviews it /\
  (repetitions it = 0 -> interval it <= 1) /\
  (repetitions it = 1 -> interval it = 1) /\
  (1 <= repetitions it -> 1 <= interval it) /\
  (total_reviews it = 0 -> interval it = 0 /\ repetitions it = 0) /\
  (0 < total_reviews it -> 1 <= interval it).

(** The dict has unique keys and stores each item under its word_id. *)
Definition store_wf (s : store) : Prop :=
  NoDup (map fst s) /\ forall k it, In (k, it) s -> word_id it = k.

(** A started session: the counters match the cursor, the cursor is within
    the queue (or at its end) and every queued id is tracked. *)
Definition session_ok (ses : Session) : Prop :=
  stats_correct ses + stats_incorrect ses = current_index ses /\
  0 <= stats_correct ses /\ 0 <= stats_incorrect ses /\
  current_index ses <= Z.of_nat (List.length (session_items ses)) /\
  stats_total ses = Z.of_nat (List.length (session_items ses)) /\
  (forall wid, In wid (session_items ses) -> lookup wid (srs ses) <> None).

(** * Second definitions, following the spec's words *)

(** The spec's ease update with a mathematical maximum. *)
Definition sm2_ease_spec (ef : Q) (q : Z) : Q :=
  Qmax (13 # 10) (ef + ((1 # 10) - inject_Z (5 - q) * ((8 # 100) + inject_Z (5 - q) * (2 # 100))))%Q.

(** The spec's due rule: never scheduled, or scheduled at or before now. *)
Definition due_by_rule (now : Z) (it : ReviewItem) : bool :=
  match next_review it with None => true | Some nr => Z.leb nr now end.

(** * Small runs *)

Example review_fresh_q5 :
  review 0 0 "bal" 5 [("bal", new_item "bal" "b" "honey" (Some 0))]
  = inr ((1, ease_update (5 # 2) 5, DAY),
         [("bal", mkItem "bal" "b" "honey" (ease_update (5 # 2) 5) 1 1 (Some DAY) (Some 0) 1 1 0)]).
Proof. reflexivity. Qed.

Example ease_update_q5 : Qeq (ease_update (5 # 2) 5) (26 # 10).
Proof. reflexivity. Qed.

Example py_round_half_even : py_round (5 # 2) = 2 /\ py_round (7 # 2) = 4 /\ py_round (27 # 10) = 3.
Proof. repeat split; reflexivity. Qed.

(** * Lemmas on the dict *)

Lemma lookup_update_same k v it s :
  lookup k s = Some it -> lookup k (update k v s) = Some v.
Proof.
  induction s as [|[k' v'] s IH]; simpl; [discriminate|].
  destruct (String.eqb k k') eqn:E; simpl; rewrite ?E; auto.
Qed.

Lemma lookup_update_other k k' v s :
  k <> k' -> lookup k' (update k v s) = lookup k' s.
Proof.
  intros Hne. induction s as [|[k0 v0] s IH]; simpl; auto.
  destruct (String.eqb k k0) eqn:E; simpl.
  - apply String.eqb_eq in E; subst k0.
    destruct (String.eqb k' k) eqn:E'; auto.
    apply String.eqb_eq in E'; congruence.
  - destruct (String.eqb k' k0); auto.
Qed.

Lemma lookup_app_l k s s' it :
  lookup k s = Some it -> lookup k (s ++ s') = Some it.
Proof.
  induction s as [|[k0 v0] s IH]; simpl; [discriminate|].
  destruct (String.eqb k k0); auto.
Qed.

Lemma lookup_app_r k s s' :
  lookup k s = None -> lookup k (s ++ s') = lookup k s'.
Proof.
  induction s as [|[k0 v0] s IH]; simpl; auto.
  destruct (String.eqb k k0); [discriminate|auto].
Qed.

Lemma lookup_In k s it : lookup k s = Some it -> exists k', In (k', it) s.
Proof.
  induction s as [|[k0 v0] s IH]; simpl; [discriminate|].
  destruct (String.eqb k k0).
  - intros H; injection H as <-; eauto.
  - intros H; destruct (IH H) as [k' Hk']; eauto.
Qed.

Lemma In_update k v s k' it :
  In (k', it) (update k v s) -> In (k', it) s \/ it = v.
Proof.
  induction s as [|[k0 v0] s IH]; simpl; [tauto|].
  destruct (String.eqb k k0); simpl.
  - intros [H|H]; [injection H as <- <-; auto | auto].
  - intros [H|H]; [auto | destruct (IH H); auto].
Qed.

(** Every entry of the dict satisfies [P]. *)
Definition all_items (P : ReviewItem -> Prop) (s : store) : Prop :=
  forall k it, In (k, it) s -> P it.

Lemma all_items_update (P : ReviewItem -> Prop) k v s :
  all_items P s -> P v -> all_items P (update k v s).
Proof.
  intros Hs Hv k' it Hin. destruct (In_update _ _ _ _ _ Hin) as [H| ->]; eauto.
Qed.

Lemma all_items_app (P : ReviewItem -> Prop) s s' :
  all_items P s -> all_items P s' -> all_items P (s ++ s').
Proof.
  intros H1 H2 k it Hin. apply in_app_or in Hin as [H|H]; eauto.
Qed.

(** A call preserves a property that fresh items have and that review
    re-establishes on the item it rewrites. *)
Lemma exec_op_preserves (P : ReviewItem -> Prop) o s :
  (forall wid b e nr, P (new_item wid b e nr)) ->
  (forall t1 t2 q it, P it -> P (review_item t1 t2 q it)) ->
  all_items P s -> all_items P (exec_op o s).
Proof.
  intros Hnew Hrev Hs. destruct o as [now wid b e | t1 t2 wid q]; simpl.
  - unfold add_word. destruct (lookup wid s); simpl; auto.
    apply all_items_app; auto.
    intros k it [H|[]]. injection H as _ <-. apply Hnew.
  - unfold review. destruct (lookup wid s) eqn:E; auto.
    apply all_items_update; auto.
    destruct (lookup_In _ _ _ E) as [k' Hk']. apply Hrev. eapply Hs; eauto.
Qed.

Lemma run_preserves (P : ReviewItem -> Prop) ops s :
  (forall wid b e nr, P (new_item wid b e nr)) ->
  (forall t1 t2 q it, P it -> P (review_item t1 t2 q it)) ->
  all_items P s -> all_items P (run ops s).
Proof.
  intros Hnew Hrev. revert s. induction ops as [|o ops IH]; simpl; auto.
  intros s Hs. apply IH. apply exec_op_preserves; auto.
Qed.

(** * Lemmas on review *)

Lemma py_max_Qmax a b : py_max a b = Qmax a b.
Proof.
  unfold py_max, Qmax, GenericMinMax.gmax.
  destruct (Qle_bool b a) eqn:E.
  - apply Qle_bool_iff in E.
    destruct (Qcompare a b) eqn:C; auto.
    apply Qlt_alt in C. exfalso. apply (Qlt_not_le a b); auto.
  - assert (Hn : ~ (b <= a)%Q) by (intros H; apply Qle_bool_iff in H; congruence).
    destruct (Qcompare a b) eqn:C; auto; exfalso; apply Hn.
    + apply Qeq_alt in C. rewrite C. apply Qle_refl.
    + apply Qgt_alt in C. apply Qlt_le_weak; auto.
Qed.

Lemma py_max_ge a b : (a <= py_max a b)%Q.
Proof.
  unfold py_max. destruct (Qle_bool b a) eqn:E; [apply Qle_refl|].
  apply Qlt_le_weak, Qnot_le_lt. intros H. apply Qle_bool_iff in H. congruence.
Qed.

Lemma clamp_quality_range q : 0 <= clamp_quality q <= 5.
Proof. unfold clamp_quality; lia. Qed.

Lemma exec_review_lookup t1 t2 wid q s it :
  lookup wid s = Some it ->
  lookup wid (exec_op (Review t1 t2 wid q) s) = Some (review_item t1 t2 q it).
Proof.
  intros H. simpl. unfold review. rewrite H. eapply lookup_update_same; eauto.
Qed.

Lemma review_item_ease t1 t2 q it :
  ease_factor (review_item t1 t2 q it) = ease_update (ease_factor it) (clamp_quality q).
Proof. unfold review_item. destruct (Z.leb _ _); reflexivity. Qed.

Lemma review_item_success t1 t2 q it :
  3 <= clamp_quality q ->
  interval (review_item t1 t2 q it) =
    (if Z.eqb (repetitions it) 0 then 1
     else if Z.eqb (repetitions it) 1 then 6
     else py_round (inject_Z (interval it) * ease_factor it)%Q) /\
  repetitions (review_item t1 t2 q it) = repetitions it + 1 /\
  correct_count (review_item t1 t2 q it) = correct_count it + 1 /\
  incorrect_count (review_item t1 t2 q it) = incorrect_count it /\
  total_reviews (review_item t1 t2 q it) = total_reviews it + 1.
Proof.
  intros Hq. unfold review_item.
  replace (Z.leb QUALITY_THRESHOLD (clamp_quality q)) with true
    by (symmetry; apply Z.leb_le; exact Hq).
  simpl. repeat split.
Qed.

Lemma review_item_failure t1 t2 q it :
  clamp_quality q < 3 ->
  interval (review_item t1 t2 q it) = 1 /\
  repetitions (review_item t1 t2 q it) = 0 /\
  correct_count (review_item t1 t2 q it) = correct_count it /\
  incorrect_count (review_item t1 t2 q it) = incorrect_count it + 1 /\
  total_reviews (review_item t1 t2 q it) = total_reviews it + 1.
Proof.
  intros Hq. unfold review_item.
  replace (Z.leb QUALITY_THRESHOLD (clamp_quality q)) with false
    by (symmetry; apply Z.leb_gt; exact Hq).
  simpl. repeat split.
Qed.

Lemma add_word_fresh_lookup now wid b e s :
  lookup wid s = None ->
  lookup wid (exec_op (AddItem now wid b e) s) = Some (new_item wid b e (Some now)).
Proof.
  intros H. simpl. unfold add_word. rewrite H. simpl.
  rewrite lookup_app_r by exact H. simpl. rewrite String.eqb_refl. reflexivity.
Qed.

(** * Claims on the scheduler *)

(** C3: a successful review (clamped quality at least 3) sets the interval
    to 1 when repetitions was 0, to 6 when it was 1, and otherwise to
    round(interval * ease_factor) with the ease factor from before the
    review; so a fresh item's third consecutive success gives
    round(6 * ease factor after the second review). *)
Theorem review_success_interval :
  (forall t1 t2 wid q s it,
     lookup wid s = Some it -> 3 <= clamp_quality q ->
     lookup wid (exec_op (Review t1 t2 wid q) s) = Some (review_item t1 t2 q it) /\
     interval (review_item t1 t2 q it) =
       (if Z.eqb (repetitions it) 0 then 1
        else if Z.eqb (repetitions it) 1 then 6
        else py_round (inject_Z (interval it) * ease_factor it)%Q) /\
     ease_factor (review_item t1 t2 q it) = ease_update (ease_factor it) (clamp_quality q)) /\
  (forall now wid b e s a1 b1 a2 b2 a3 b3 q1 q2 q3,
     lookup wid s = None ->
     3 <= clamp_quality q1 -> 3 <= clamp_quality q2 -> 3 <= clamp_quality q3 ->
     let s0 := exec_op (AddItem now wid b e) s in
     let s1 := exec_op (Review a1 b1 wid q1) s0 in
     let s2 := exec_op (Review a2 b2 wid q2) s1 in
     let s3 := exec_op (Review a3 b3 wid q3) s2 in
     exists it1 it2 it3,
       lookup wid s1 = Some it1 /\ lookup wid s2 = Some it2 /\ lookup wid s3 = Some it3 /\
       interval it1 = 1 /\ interval it2 = 6 /\
       interval it3 = py_round (inject_Z 6 * ease_factor it2)%Q).
Proof.
  split.
  - intros t1 t2 wid q s it Hl Hq. split; [apply exec_review_lookup; auto|].
    split; [apply (review_item_success t1 t2 q it Hq)|apply review_item_ease].
  - intros now wid b e s a1 b1 a2 b2 a3 b3 q1 q2 q3 Hn H1 H2 H3 s0 s1 s2 s3.
    pose proof (add_word_fresh_lookup now wid b e s Hn) as L0.
    pose proof (exec_review_lookup a1 b1 wid q1 _ _ L0) as L1.
    pose proof (exec_review_lookup a2 b2 wid q2 _ _ L1) as L2.
    pose proof (exec_review_lookup a3 b3 wid q3 _ _ L2) as L3.
    do 3 eexists. split; [exact L1|]. split; [exact L2|]. split; [exact L3|].
    set (i0 := new_item wid b e (Some now)).
    destruct (review_item_success a1 b1 q1 i0 H1) as [I1 [R1 _]].
    destruct (review_item_success a2 b2 q2 (review_item a1 b1 q1 i0) H2) as [I2 [R2 _]].
    destruct (review_item_success a3 b3 q3 (review_item a2 b2 q2 (review_item a1 b1 q1 i0)) H3)
      as [I3 _].
    rewrite I1. split; [reflexivity|].
    rewrite I2, R1. split; [reflexivity|].
    rewrite I3, R2, R1, I2, R1. reflexivity.
Qed.

Lemma review_success_interval_witness :
  3 <= clamp_quality 5 /\
  (exists it1 it2 it3,
     lookup "bal" (exec_op (Review 2 2 "bal" 5) (exec_op (Review 1 1 "bal" 4)
       (exec_op (Review 0 0 "bal" 5) (exec_op (AddItem 0 "bal" "b" "honey") [])))) = Some it3 /\
     lookup "bal" (exec_op (Review 1 1 "bal" 4)
       (exec_op (Review 0 0 "bal" 5) (exec_op (AddItem 0 "bal" "b" "honey") []))) = Some it2 /\
     lookup "bal" (exec_op (Review 0 0 "bal" 5) (exec_op (AddItem 0 "bal" "b" "honey") [])) = Some it1 /\
     interval it3 = py_round (inject_Z 6 * ease_factor it2)%Q).
Proof.
  split; [vm_compute; discriminate|].
  destruct (proj2 review_success_interval 0 "bal" "b" "honey" [] 0 0 1 1 2 2 5 4 5
              eq_refl ltac:(vm_compute; discriminate) ltac:(vm_compute; discriminate)
              ltac:(vm_compute; discriminate))
    as [it1 [it2 [it3 [L1 [L2 [L3 [_ [_ I3]]]]]]]].
  exists it1, it2, it3. repeat split; assumption.
Defined.

(** C4: from the empty scheduler, after any sequence of add_item and
    review calls with arbitrary integer qualities, every tracked item's
    ease factor is at least 1.3; and a review sets the ease factor to
    max(1.3, old + (0.1 - (5 - q) * (0.08 + (5 - q) * 0.02))) with q the
    clamped quality, in both branches. *)
Theorem ease_floor_and_update :
  (forall ops, all_items (fun it => (13 # 10 <= ease_factor it)%Q) (run ops [])) /\
  (forall t1 t2 wid q s it,
     lookup wid s = Some it ->
     exists it', lookup wid (exec_op (Review t1 t2 wid q) s) = Some it' /\
       ease_factor it' = sm2_ease_spec (ease_factor it) (clamp_quality q)).
Proof.
  split.
  - intros ops. apply run_preserves.
    + intros. simpl. unfold Qle. simpl. lia.
    + intros t1 t2 q it _. rewrite review_item_ease. apply py_max_ge.
    + intros k it [].
  - intros t1 t2 wid q s it Hl. exists (review_item t1 t2 q it).
    split; [apply exec_review_lookup; auto|].
    rewrite review_item_ease. unfold ease_update, sm2_ease_spec.
    rewrite py_max_Qmax. reflexivity.
Qed.

Lemma ease_floor_and_update_witness :
  exists it', lookup "ot" (exec_op (Review 0 0 "ot" (-7)) [("ot", new_item "ot" "at" "horse" (Some 0))]) = Some it' /\
    ease_factor it' = sm2_ease_spec (5 # 2) (clamp_quality (-7)).
Proof.
  apply (proj2 ease_floor_and_update 0 0 "ot" (-7) _ (new_item "ot" "at" "horse" (Some 0))).
  reflexivity.
Defined.

Definition counters_ok (it : ReviewItem) : Prop :=
  total_reviews it = correct_count it + incorrect_count it /\
  0 <= correct_count it /\ 0 <= incorrect_count it.

Definition counters_le (it it' : ReviewItem) : Prop :=
  total_reviews it <= total_reviews it' /\
  correct_count it <= correct_count it' /\
  incorrect_count it <= incorrect_count it'.

Lemma review_item_counters t1 t2 q it :
  counters_le it (review_item t1 t2 q it) /\
  (counters_ok it -> counters_ok (review_item t1 t2 q it)).
Proof.
  unfold counters_le, counters_ok.
  destruct (Z.lt_ge_cases (clamp_quality q) 3) as [H|H].
  - destruct (review_item_failure t1 t2 q it H) as [_ [_ [C [I T]]]].
    rewrite C, I, T. lia.
  - destruct (review_item_success t1 t2 q it H) as [_ [_ [C [I T]]]].
    rewrite C, I, T. lia.
Qed.

Lemma exec_op_counters_le o s k it :
  lookup k s = Some it ->
  exists it', lookup k (exec_op o s) = Some it' /\ counters_le it it'.
Proof.
  intros Hl. unfold counters_le.
  destruct o as [now wid b e | t1 t2 wid q]; simpl.
  - exists it. split; [|lia]. unfold add_word.
    destruct (lookup wid s); simpl; auto. apply lookup_app_l; auto.
  - unfold review. destruct (lookup wid s) as [it0|] eqn:E; [|exists it; split; [auto|lia]].
    destruct (String.eqb_spec wid k) as [->|Hne].
    + rewrite Hl in E. injection E as <-.
      exists (review_item t1 t2 q it). split.
      * eapply lookup_update_same; eauto.
      * apply review_item_counters.
    + exists it. split; [|lia]. rewrite lookup_update_other; auto.
Qed.

(** C5: from the empty scheduler, after any sequence of add_item and
    review calls, every tracked item has total_reviews = correct_count +
    incorrect_count with non-negative counters, and the next call never
    decreases any counter of any tracked item. *)
Theorem counters_consistent :
  forall ops o,
    all_items counters_ok (run ops []) /\
    (forall k it, lookup k (run ops []) = Some it ->
       exists it', lookup k (exec_op o (run ops [])) = Some it' /\ counters_le it it').
Proof.
  intros ops o. split.
  - apply run_preserves.
    + intros. unfold counters_ok. simpl. lia.
    + intros t1 t2 q it H. apply review_item_counters; auto.
    + intros k it [].
  - intros k it Hl. apply exec_op_counters_le; auto.
Qed.

Lemma counters_consistent_witness :
  lookup "bal" (run [AddItem 0 "bal" "b" "honey"] []) = Some (new_item "bal" "b" "honey" (Some 0)) /\
  exists it', lookup "bal" (exec_op (Review 1 1 "bal" 2) (run [AddItem 0 "bal" "b" "honey"] [])) = Some it' /\
    counters_le (new_item "bal" "b" "honey" (Some 0)) it'.
Proof.
  split; [reflexivity|].
  apply (proj2 (counters_consistent [AddItem 0 "bal" "b" "honey"] (Review 1 1 "bal" 2))).
  reflexivity.
Defined.

(** C6: review accepts every integer quality and clamps it into [0,5];
    it takes the failure branch exactly when the clamped quality is below
    3, and then sets repetitions to 0, interval to 1 and increments
    incorrect_count, whatever the item's prior state. *)
Theorem review_clamps_and_failure_resets :
  forall t1 t2 wid q s it,
    lookup wid s = Some it ->
    exists res s',
      review t1 t2 wid q s = inr (res, s') /\
      lookup wid s' = Some (review_item t1 t2 q it) /\
      0 <= clamp_quality q <= 5 /\
      (0 <= q <= 5 -> clamp_quality q = q) /\
      (clamp_quality q < 3 ->
         repetitions (review_item t1 t2 q it) = 0 /\
         interval (review_item t1 t2 q it) = 1 /\
         incorrect_count (review_item t1 t2 q it) = incorrect_count it + 1 /\
         correct_count (review_item t1 t2 q it) = correct_count it) /\
      (3 <= clamp_quality q ->
         repetitions (review_item t1 t2 q it) = repetitions it + 1 /\
         correct_count (review_item t1 t2 q it) = correct_count it + 1 /\
         incorrect_count (review_item t1 t2 q it) = incorrect_count it).
Proof.
  intros t1 t2 wid q s it Hl. unfold review. rewrite Hl.
  do 2 eexists. split; [reflexivity|].
  split; [eapply lookup_update_same; eauto|].
  split; [apply clamp_quality_range|].
  split; [unfold clamp_quality; lia|].
  split.
  - intros H. destruct (review_item_failure t1 t2 q it H) as [I [R [C [N _]]]].
    repeat split; assumption.
  - intros H. destruct (review_item_success t1 t2 q it H) as [_ [R [C [N _]]]].
    repeat split; assumption.
Qed.

Lemma review_clamps_and_failure_resets_witness :
  exists res s',
    review 0 0 "ot" 9 [("ot", mkItem "ot" "at" "horse" (5 # 2) 10 3 (Some 0) None 3 3 0)]
      = inr (res, s') /\
    lookup "ot" s' = Some (review_item 0 0 9 (mkItem "ot" "at" "horse" (5 # 2) 10 3 (Some 0) None 3 3 0)).
Proof.
  destruct (review_clamps_and_failure_resets 0 0 "ot" 9
              [("ot", mkItem "ot" "at" "horse" (5 # 2) 10 3 (Some 0) None 3 3 0)]
              (mkItem "ot" "at" "horse" (5 # 2) 10 3 (Some 0) None 3 3 0) eq_refl)
    as [res [s' [R [L _]]]].
  exists res, s'. split; assumption.
Defined.

(** C7: reviewing an id that is not tracked raises the not-found error
    and leaves the scheduler's dict unchanged; no item is created. *)
Theorem review_unknown_item :
  forall t1 t2 wid q s,
    lookup wid s = None ->
    review t1 t2 wid q s = inl (ValueError_not_found wid) /\
    exec_op (Review t1 t2 wid q) s = s /\
    lookup wid (exec_op (Review t1 t2 wid q) s) = None.
Proof.
  intros t1 t2 wid q s Hl. simpl. unfold review. rewrite Hl. auto.
Qed.

Lemma review_unknown_item_witness :
  review 0 0 "tau" 4 [("bal", new_item "bal" "b" "honey" (Some 0))] = inl (ValueError_not_found "tau") /\
  exec_op (Review 0 0 "tau" 4) [("bal", new_item "bal" "b" "honey" (Some 0))]
    = [("bal", new_item "bal" "b" "honey" (Some 0))].
Proof.
  destruct (review_unknown_item 0 0 "tau" 4 [("bal", new_item "bal" "b" "honey" (Some 0))] eq_refl)
    as [A [B _]].
  split; assumption.
Defined.

(** * Claims on the review session *)

(** C8: once the cursor is at or past the end of the queue, submit_answer
    answers "No more items" and changes neither the cursor, nor the
    session stats, nor the scheduler's items. *)
Theorem submit_answer_complete :
  forall t1 t2 q ses,
    in_progress ses = false ->
    submit_answer t1 t2 q ses = inr (NoMoreItems, ses).
Proof.
  intros t1 t2 q ses H. unfold submit_answer. rewrite H. reflexivity.
Qed.

Lemma submit_answer_complete_witness :
  in_progress (mkSession [("bal", new_item "bal" "b" "honey" (Some 0))] [] ["bal"] 1 1 1 0) = false /\
  submit_answer 0 0 5 (mkSession [("bal", new_item "bal" "b" "honey" (Some 0))] [] ["bal"] 1 1 1 0)
    = inr (NoMoreItems, mkSession [("bal", new_item "bal" "b" "honey" (Some 0))] [] ["bal"] 1 1 1 0).
Proof.
  split; [reflexivity|]. apply submit_answer_complete. reflexivity.
Defined.

Lemma collect_due_none now s :
  (forall k it, In (k, it) s -> exists nr, next_review it = Some nr /\ now < nr) ->
  collect_due now s = [].
Proof.
  induction s as [|[k it] s IH]; simpl; auto. intros H.
  destruct (H k it (or_introl eq_refl)) as [nr [E Hlt]]. rewrite E.
  replace (Z.leb nr now) with false by (symmetry; apply Z.leb_gt; lia).
  apply IH. intros k' it' Hin. eapply H; eauto.
Qed.

Lemma get_due_items_none now lim s :
  (forall k it, In (k, it) s -> exists nr, next_review it = Some nr /\ now < nr) ->
  get_due_items now lim s = [].
Proof.
  intros H. unfold get_due_items. rewrite collect_due_none by exact H. simpl.
  destruct lim as [l|]; auto. destruct (Z.eqb l 0); auto.
  unfold py_take. destruct (Z.leb 0 l); apply firstn_nil.
Qed.

Lemma get_new_items_loop_none s ws n lim :
  (forall w, In w ws -> lookup (word_key w) s <> None) ->
  get_new_items_loop s ws n lim = [].
Proof.
  revert n. induction ws as [|w ws IH]; simpl; auto. intros n H.
  destruct (lookup (word_key w) s) eqn:E.
  - apply IH. intros w' Hw'. apply H; auto.
  - exfalso. apply (H w); auto.
Qed.

(** C9: with no item due and every vocabulary entry already tracked,
    start_session returns false, the session is at once complete, and the
    summary is all zeros with accuracy 0 (no division). *)
Theorem start_session_empty :
  forall now new_words review_words ses,
    (forall k it, In (k, it) (srs ses) -> exists nr, next_review it = Some nr /\ now < nr) ->
    (forall w, In w (map snd (words_data ses)) -> lookup (word_key w) (srs ses) <> None) ->
    fst (start_session now new_words review_words ses) = false /\
    in_progress (snd (start_session now new_words review_words ses)) = false /\
    get_session_summary (snd (start_session now new_words review_words ses)) = mkSummary 0 0 0 0 0%Q.
Proof.
  intros now nw rw ses Hdue Hnew. unfold start_session.
  rewrite get_due_items_none by exact Hdue.
  unfold get_new_items. rewrite get_new_items_loop_none by exact Hnew.
  simpl. repeat split.
Qed.

Lemma start_session_empty_witness :
  let ses := init_session [("bal", new_item "bal" "b" "honey" (Some 100))]
               [mkWord (Some "bal") "b" "honey"; mkWord None "bal" "honey"] in
  fst (start_session 0 5 20 ses) = false /\
  get_session_summary (snd (start_session 0 5 20 ses)) = mkSummary 0 0 0 0 0%Q.
Proof.
  intros ses.
  destruct (start_session_empty 0 5 20 ses) as [A [_ C]].
  - intros k it [H|[]]. injection H as <- <-. exists 100. split; [reflexivity|lia].
  - intros w [H|[]]. rewrite <- H. discriminate.
  - split; assumption.
Defined.

(** * The helper calculate_next_review against review *)

(** C10 (refuted): at quality 2 on a fresh state (ease 2.5, interval 0,
    repetitions 0), the helper's ease is max(1.3, 2.5 - 0.2) = 2.3 while
    review gives max(1.3, 2.5 - 0.32) = 2.18. *)
Lemma calculate_next_review_failure_differs :
  let it := new_item "ot" "at" "horse" (Some 0) in
  Qeq (snd (calculate_next_review 2 (5 # 2) 0 0)) (23 # 10) /\
  Qeq (ease_factor (review_item 0 0 2 it)) (218 # 100) /\
  ~ Qeq (snd (calculate_next_review 2 (ease_factor it) (interval it) (repetitions it)))
        (ease_factor (review_item 0 0 2 it)).
Proof.
  vm_compute. split; [reflexivity|]. split; [reflexivity|]. discriminate.
Qed.

(** C10 (amended): for a quality in [0,5], calculate_next_review returns
    the pair review computes when the quality is at least 3; below 3 both
    give interval 1, the helper's ease being max(1.3, ease - 0.2) and
    review's the SM-2 update. *)
Theorem calculate_next_review_vs_review :
  forall t1 t2 q it,
    0 <= q <= 5 ->
    (3 <= q ->
       calculate_next_review q (ease_factor it) (interval it) (repetitions it) =
       (interval (review_item t1 t2 q it), ease_factor (review_item t1 t2 q it))) /\
    (q < 3 ->
       calculate_next_review q (ease_factor it) (interval it) (repetitions it) =
         (1, py_max (13 # 10) (ease_factor it - (2 # 10))%Q) /\
       interval (review_item t1 t2 q it) = 1 /\
       ease_factor (review_item t1 t2 q it) = ease_update (ease_factor it) q).
Proof.
  intros t1 t2 q it Hq.
  assert (Hc : clamp_quality q = q) by (unfold clamp_quality; lia).
  split.
  - intros H3. unfold calculate_next_review.
    replace (Z.ltb q 3) with false by (symmetry; apply Z.ltb_ge; lia).
    destruct (review_item_success t1 t2 q it ltac:(lia)) as [I _].
    rewrite I, review_item_ease, Hc. reflexivity.
  - intros H3. unfold calculate_next_review.
    replace (Z.ltb q 3) with true by (symmetry; apply Z.ltb_lt; lia).
    destruct (review_item_failure t1 t2 q it ltac:(lia)) as [I _].
    rewrite I, review_item_ease, Hc. auto.
Qed.

Lemma calculate_next_review_vs_review_witness :
  calculate_next_review 4 (5 # 2) 6 2 =
    (interval (review_item 0 0 4 (mkItem "tau" "t" "mountain" (5 # 2) 6 2 None None 2 2 0)),
     ease_factor (review_item 0 0 4 (mkItem "tau" "t" "mountain" (5 # 2) 6 2 None None 2 2 0))).
Proof.
  apply (proj1 (calculate_next_review_vs_review 0 0 4
                  (mkItem "tau" "t" "mountain" (5 # 2) 6 2 None None 2 2 0) ltac:(lia))).
  lia.
Defined.

(** * get_statistics and get_due_items against the due rule *)

(** C1 (failing input): an item whose next_review is null (the dataclass
    default, or [null] in a loaded JSON file) is due by the rule and is
    returned by get_due_items, but [if item.next_review:] in
    get_statistics skips it, so due_today is 0. *)
Lemma get_statistics_skips_null_next_review :
  let s := [("bal", new_item "bal" "b" "honey" None)] in
  due_today (get_statistics 0 s) = 0 /\
  List.length (filter (due_by_rule 0) (map snd s)) = 1%nat /\
  get_due_items 0 None s = map snd s.
Proof. vm_compute. repeat split. Qed.

Lemma statistics_loop_due now s :
  (forall k it, In (k, it) s -> next_review it <> None) ->
  forall m l d tc tr es,
  exists m' l' tc' tr' es',
    statistics_loop now s (m, l, d, tc, tr, es) =
      (m', l', d + Z.of_nat (List.length (filter (due_by_rule now) (map snd s))), tc', tr', es').
Proof.
  induction s as [|[k it] s IH]; intros Hs m l d tc tr es.
  - do 5 eexists. simpl. rewrite Z.add_0_r. reflexivity.
  - simpl. assert (Hs' : forall k' it', In (k', it') s -> next_review it' <> None)
      by (intros k' it' H; apply (Hs k' it'); right; exact H).
    unfold due_by_rule at 1.
    destruct (next_review it) as [nr|] eqn:E;
      [|exfalso; apply (Hs k it); [left; reflexivity | exact E]].
    destruct (Z.leb 21 (interval it)); [|destruct (Z.ltb 0 (total_reviews it))];
    destruct (Z.leb nr now) eqn:L;
    match goal with
    | |- exists _ _ _ _ _, statistics_loop now s (?a, ?b, ?d0, ?c, ?e, ?f) = _ =>
        destruct (IH Hs' a b d0 c e f) as [m' [l' [tc' [tr' [es' ->]]]]]
    end;
    exists m', l', tc', tr', es'; simpl List.length; f_equal; f_equal; f_equal; try f_equal; lia.
Qed.

(** When every item has a next_review, due_today counts the items due by
    the rule. *)
Lemma due_today_scheduled_items now s :
  (forall k it, In (k, it) s -> next_review it <> None) ->
  due_today (get_statistics now s) = Z.of_nat (List.length (filter (due_by_rule now) (map snd s))).
Proof.
  intros Hs. destruct s as [|p s']; [reflexivity|].
  unfold get_statistics.
  destruct (statistics_loop_due now (p :: s') Hs 0 0 0 0 0 0%Q) as [m' [l' [tc' [tr' [es' E]]]]].
  rewrite E. reflexivity.
Qed.

Definition key_le {A} (a b : A * Z) : Prop := snd a <= snd b.

Lemma insert_by_key_perm {A} (x : A * Z) l : Permutation (insert_by_key x l) (x :: l).
Proof.
  induction l as [|y l IH]; simpl; auto.
  destruct (Z.leb (snd x) (snd y)); auto.
  eapply perm_trans; [apply perm_skip, IH | apply perm_swap].
Qed.

Lemma sort_by_key_perm {A} (l : list (A * Z)) : Permutation (sort_by_key l) l.
Proof.
  induction l as [|x l IH]; simpl; auto.
  eapply perm_trans; [apply insert_by_key_perm | apply perm_skip, IH].
Qed.

Lemma insert_by_key_sorted {A} (x : A * Z) l :
  Sorted key_le l -> Sorted key_le (insert_by_key x l).
Proof.
  induction l as [|y l IH]; simpl; intros Hs; [repeat constructor|].
  destruct (Z.leb (snd x) (snd y)) eqn:E.
  - constructor; auto. constructor. unfold key_le. apply Z.leb_le; auto.
  - apply Z.leb_gt in E. inversion Hs as [|? ? Hl Hhd]; subst.
    constructor; [apply IH; auto|].
    destruct l as [|z l]; simpl; [constructor; unfold key_le; lia|].
    inversion Hhd; subst.
    destruct (Z.leb (snd x) (snd z)); constructor; unfold key_le in *; lia.
Qed.

Lemma sort_by_key_sorted {A} (l : list (A * Z)) : Sorted key_le (sort_by_key l).
Proof. induction l; simpl; [constructor | apply insert_by_key_sorted; auto]. Qed.

Lemma collect_due_items now s :
  map fst (collect_due now s) = filter (due_by_rule now) (map snd s).
Proof.
  induction s as [|[k it] s IH]; simpl; auto.
  destruct (due_by_rule now it) eqn:D; unfold due_by_rule in D;
    destruct (next_review it) as [nr|]; try discriminate; simpl; try rewrite D; simpl;
    rewrite IH; reflexivity.
Qed.

(** Apart from the limit, get_due_items returns the due items sorted by
    their effective due time, and a positive limit keeps the first ones. *)
Lemma get_due_items_positive_limit now l s :
  0 < l ->
  get_due_items now None s = map fst (sort_by_key (collect_due now s)) /\
  Sorted key_le (sort_by_key (collect_due now s)) /\
  Permutation (get_due_items now None s) (filter (due_by_rule now) (map snd s)) /\
  get_due_items now (Some l) s = firstn (Z.to_nat l) (get_due_items now None s).
Proof.
  intros Hl. split; [reflexivity|]. split; [apply sort_by_key_sorted|]. split.
  - unfold get_due_items. rewrite <- collect_due_items.
    apply Permutation_map, sort_by_key_perm.
  - unfold get_due_items, py_take.
    replace (Z.eqb l 0) with false by (symmetry; apply Z.eqb_neq; lia).
    replace (Z.leb 0 l) with true by (symmetry; apply Z.leb_le; lia). reflexivity.
Qed.

(** C2 (failing input): [if limit:] treats a limit of 0 as no limit, so
    get_due_items(limit=0), which start_session(review_words=0) issues,
    returns every due item instead of the first 0 of them. *)
Lemma get_due_items_limit_zero :
  let s := [("bal", new_item "bal" "b" "honey" (Some 0));
            ("tau", new_item "tau" "t" "mountain" None)] in
  get_due_items 10 (Some 0) s = [new_item "bal" "b" "honey" (Some 0); new_item "tau" "t" "mountain" None] /\
  firstn 0 (get_due_items 10 None s) = [] /\
  List.length (get_due_items 10 (Some 0) s) = 2%nat.
Proof. vm_compute. repeat split. Qed.

(** * Further properties of the scheduler *)

Lemma lookup_Some_In k s it : lookup k s = Some it -> In (k, it) s.
Proof.
  induction s as [|[k0 v0] s IH]; simpl; [discriminate|].
  destruct (String.eqb_spec k k0) as [->|_].
  - intros H; injection H as <-; auto.
  - intros H; right; auto.
Qed.

Lemma lookup_None_notin k s : lookup k s = None -> ~ In k (map fst s).
Proof.
  induction s as [|[k0 v0] s IH]; simpl; [auto|].
  destruct (String.eqb_spec k k0) as [->|Hne]; [discriminate|].
  intros H [H'|H']; [congruence | apply IH; auto].
Qed.

Lemma map_fst_update k v s : map fst (update k v s) = map fst s.
Proof.
  induction s as [|[k0 v0] s IH]; simpl; auto.
  destruct (String.eqb k k0); simpl; rewrite ?IH; auto.
Qed.

Lemma In_update_key k v s k' it :
  In (k', it) (update k v s) -> In (k', it) s \/ (k' = k /\ it = v).
Proof.
  induction s as [|[k0 v0] s IH]; simpl; [tauto|].
  destruct (String.eqb_spec k k0) as [->|_]; simpl.
  - intros [H|H]; [injection H as <- <-; auto | auto].
  - intros [H|H]; [auto | destruct (IH H); auto].
Qed.

Lemma lookup_app_other k wid it s :
  k <> wid -> lookup k (s ++ [(wid, it)]) = lookup k s.
Proof.
  intros Hne. destruct (lookup k s) eqn:E.
  - apply lookup_app_l; auto.
  - rewrite lookup_app_r by auto. simpl.
    destruct (String.eqb_spec k wid); [contradiction | reflexivity].
Qed.

(** add_word is idempotent: a second call with the same id, whatever
    strings it passes, returns the item of the first call and leaves the
    dict unchanged. *)
Theorem add_word_idempotent :
  forall now now' wid b e b' e' s,
    add_word now' wid b' e' (snd (add_word now wid b e s)) =
      (fst (add_word now wid b e s), snd (add_word now wid b e s)).
Proof.
  intros. unfold add_word at 2 3 4. destruct (lookup wid s) as [it|] eqn:E; simpl.
  - unfold add_word. rewrite E. reflexivity.
  - unfold add_word. rewrite lookup_app_r by exact E. simpl.
    rewrite String.eqb_refl. reflexivity.
Qed.

Lemma exec_op_store_wf o s : store_wf s -> store_wf (exec_op o s).
Proof.
  intros [Hnd Hid]. destruct o as [now wid b e | t1 t2 wid q]; simpl.
  - unfold add_word. destruct (lookup wid s) eqn:E; simpl; [split; auto|].
    split.
    + rewrite map_app. simpl.
      apply (Permutation_NoDup (Permutation_cons_append (map fst s) wid)).
      constructor; auto. apply lookup_None_notin; auto.
    + intros k it Hin. apply in_app_or in Hin as [H|[H|[]]]; eauto.
      injection H as <- <-. reflexivity.
  - unfold review. destruct (lookup wid s) as [it0|] eqn:E; [|split; auto].
    split; [rewrite map_fst_update; auto|].
    intros k it Hin. destruct (In_update_key _ _ _ _ _ Hin) as [H|[-> ->]]; eauto.
    unfold review_item. destruct (Z.leb _ _); simpl; apply Hid, lookup_Some_In; auto.
Qed.

(** From the empty scheduler, every sequence of add_word and review calls
    keeps the dict's keys unique and stores each item under its own
    word_id. *)
Theorem store_wf_run : forall ops, store_wf (run ops []).
Proof.
  intros ops. assert (H0 : store_wf []) by (split; [constructor | intros k it []]).
  revert H0. generalize (@nil (string * ReviewItem)).
  induction ops as [|o ops IH]; simpl; auto.
  intros s Hs. apply IH, exec_op_store_wf; auto.
Qed.

(** add_word and review touch only the entry of the id they are called
    with, and review never adds or removes a key. *)
Theorem exec_op_frame :
  (forall now wid b e s k, k <> wid ->
     lookup k (exec_op (AddItem now wid b e) s) = lookup k s) /\
  (forall t1 t2 wid q s k, k <> wid ->
     lookup k (exec_op (Review t1 t2 wid q) s) = lookup k s) /\
  (forall t1 t2 wid q s, map fst (exec_op (Review t1 t2 wid q) s) = map fst s).
Proof.
  split; [|split].
  - intros now wid b e s k Hne. simpl. unfold add_word.
    destruct (lookup wid s); simpl; [reflexivity|]. apply lookup_app_other; auto.
  - intros t1 t2 wid q s k Hne. simpl. unfold review.
    destruct (lookup wid s); [|reflexivity]. apply lookup_update_other; auto.
  - intros t1 t2 wid q s. simpl. unfold review.
    destruct (lookup wid s); [apply map_fst_update | reflexivity].
Qed.

Lemma exec_op_frame_witness :
  lookup "bal" (exec_op (Review 0 0 "tau" 1)
    [("bal", new_item "bal" "b" "honey" (Some 0)); ("tau", new_item "tau" "t" "mountain" (Some 0))])
  = Some (new_item "bal" "b" "honey" (Some 0)).
Proof.
  apply (proj1 (proj2 exec_op_frame)). discriminate.
Defined.

Lemma py_round_floor x : Qfloor x <= py_round x <= Qfloor x + 1.
Proof.
  unfold py_round. destruct (Qcompare _ _); [destruct (Z.even _)| |]; lia.
Qed.

Lemma py_round_mul_ge i e : 0 <= i -> (1 <= e)%Q -> i <= py_round (inject_Z i * e)%Q.
Proof.
  intros Hi He.
  assert (Hle : (inject_Z i <= inject_Z i * e)%Q).
  { rewrite <- (Qmult_1_r (inject_Z i)) at 1.
    apply Qmult_le_compat_nonneg; split; auto;
      try apply Qle_refl; unfold Qle; simpl; lia. }
  apply Qfloor_resp_le in Hle. rewrite Qfloor_Z in Hle.
  pose proof (py_round_floor (inject_Z i * e)%Q). lia.
Qed.

Lemma review_item_ok t1 t2 q it : item_ok it -> item_ok (review_item t1 t2 q it).
Proof.
  intros (He & Hr & Hi & Ht & H0 & H1 & Hpos & Ht0 & Htp).
  assert (He' : ((13 # 10) <= ease_factor (review_item t1 t2 q it))%Q)
    by (rewrite review_item_ease; apply py_max_ge).
  destruct (Z.lt_ge_cases (clamp_quality q) 3) as [Hq|Hq].
  - destruct (review_item_failure t1 t2 q it Hq) as (I & R & _ & _ & T).
    unfold item_ok. rewrite I, R, T. repeat split; auto; lia.
  - destruct (review_item_success t1 t2 q it Hq) as (I & R & _ & _ & T).
    unfold item_ok. rewrite R, T.
    destruct (Z.eqb_spec (repetitions it) 0) as [E0|N0];
      [|destruct (Z.eqb_spec (repetitions it) 1) as [E1|N1]]; rewrite I.
    + repeat split; auto; lia.
    + repeat split; auto; lia.
    + assert (1 <= interval it) by (apply Hpos; lia).
      assert (interval it <= py_round (inject_Z (interval it) * ease_factor it)%Q).
      { apply py_round_mul_ge; [lia|]. eapply Qle_trans; [|exact He].
        unfold Qle; simpl; lia. }
      repeat split; auto; lia.
Qed.

Lemma item_ok_reachable ops : all_items item_ok (run ops []).
Proof.
  apply run_preserves.
  - intros. unfold item_ok; simpl. repeat split; try lia. unfold Qle; simpl; lia.
  - intros. apply review_item_ok; auto.
  - intros k it [].
Qed.

(** From the empty scheduler, after any sequence of add_word and review
    calls every item has ease >= 1.3, repetitions >= 0 and interval >= 0;
    an item never reviewed has interval 0 and repetitions 0; a reviewed
    item has interval >= 1; total_reviews >= 0; repetitions 0 means interval <= 1, repetitions
    1 means interval 1, and repetitions >= 1 means interval >= 1. *)
Theorem item_ok_run : forall ops, all_items item_ok (run ops []).
Proof. exact item_ok_reachable. Qed.

(** In a state reached from the empty scheduler, a successful review never
    shortens the item's interval. *)
Theorem success_never_shortens :
  forall ops wid it t1 t2 q,
    lookup wid (run ops []) = Some it -> 3 <= clamp_quality q ->
    lookup wid (exec_op (Review t1 t2 wid q) (run ops [])) = Some (review_item t1 t2 q it) /\
    interval it <= interval (review_item t1 t2 q it).
Proof.
  intros ops wid it t1 t2 q Hl Hq. split; [apply exec_review_lookup; auto|].
  destruct (lookup_In _ _ _ Hl) as [k Hk].
  destruct (item_ok_reachable ops k it Hk) as (He & Hr & Hi & Ht & H0 & H1 & Hpos & _).
  destruct (review_item_success t1 t2 q it Hq) as (I & _).
  rewrite I.
  destruct (Z.eqb_spec (repetitions it) 0) as [E0|N0];
    [|destruct (Z.eqb_spec (repetitions it) 1) as [E1|N1]].
  - specialize (H0 E0). lia.
  - specialize (H1 E1). lia.
  - apply py_round_mul_ge; [lia|]. eapply Qle_trans; [|exact He]. unfold Qle; simpl; lia.
Qed.

Lemma success_never_shortens_witness :
  lookup "bal" (exec_op (Review 1 1 "bal" 5) (run [AddItem 0 "bal" "b" "honey"] []))
    = Some (review_item 1 1 5 (new_item "bal" "b" "honey" (Some 0))) /\
  interval (new_item "bal" "b" "honey" (Some 0))
    <= interval (review_item 1 1 5 (new_item "bal" "b" "honey" (Some 0))).
Proof.
  apply (success_never_shortens [AddItem 0 "bal" "b" "honey"] "bal" _ 1 1 5); [reflexivity|].
  vm_compute. discriminate.
Defined.

(** get_item_status: an untracked id is 'unseen', a freshly added one is
    'new', and once reviewed an item is never 'new' or 'unseen' again; a
    failed review (clamped quality below 3) leaves it 'learning'. *)
Theorem item_status_transitions :
  (forall wid s, lookup wid s = None -> get_item_status wid s = "unseen") /\
  (forall now wid b e s, lookup wid s = None ->
     get_item_status wid (exec_op (AddItem now wid b e) s) = "new") /\
  (forall t1 t2 wid q s it, lookup wid s = Some it -> 0 <= total_reviews it ->
     get_item_status wid (exec_op (Review t1 t2 wid q) s) <> "new" /\
     get_item_status wid (exec_op (Review t1 t2 wid q) s) <> "unseen" /\
     (clamp_quality q < 3 -> get_item_status wid (exec_op (Review t1 t2 wid q) s) = "learning")).
Proof.
  split; [|split].
  - intros wid s H. unfold get_item_status. rewrite H. reflexivity.
  - intros now wid b e s H. unfold get_item_status.
    rewrite add_word_fresh_lookup by exact H. reflexivity.
  - intros t1 t2 wid q s it Hl Ht. unfold get_item_status.
    rewrite (exec_review_lookup t1 t2 wid q s it Hl).
    assert (T : total_reviews (review_item t1 t2 q it) = total_reviews it + 1)
      by (unfold review_item; destruct (Z.leb _ _); reflexivity).
    replace (Z.eqb (total_reviews (review_item t1 t2 q it)) 0) with false
      by (symmetry; apply Z.eqb_neq; lia).
    split; [|split].
    + destruct (Z.leb 21 _); [|destruct (Z.leb 7 _)]; discriminate.
    + destruct (Z.leb 21 _); [|destruct (Z.leb 7 _)]; discriminate.
    + intros Hq. destruct (review_item_failure t1 t2 q it Hq) as (I & _).
      rewrite I. reflexivity.
Qed.

Lemma item_status_transitions_witness :
  get_item_status "ot" (exec_op (Review 0 0 "ot" 1) [("ot", mkItem "ot" "at" "horse" (5 # 2) 30 4 (Some 0) None 4 4 0)])
    = "learning".
Proof.
  apply (proj2 (proj2 (proj2 item_status_transitions) 0 0 "ot" 1
    [("ot", mkItem "ot" "at" "horse" (5 # 2) 30 4 (Some 0) None 4 4 0)]
    (mkItem "ot" "at" "horse" (5 # 2) 30 4 (Some 0) None 4 4 0) eq_refl ltac:(simpl; lia))).
  vm_compute. reflexivity.
Defined.

Ltac tuple6_lia :=
  match goal with
  | |- (?a, ?b, ?c, ?d, ?e, ?f) = (?a', ?b', ?c', ?d', ?e', ?f') =>
      assert (a = a') by lia; assert (b = b') by lia;
      assert (d = d') by lia; assert (e = e') by lia; congruence
  end.

Lemma statistics_loop_sums now s :
  forall m l d tc tr es,
  exists cm cl ctc ctr d' es',
    statistics_loop now s (m, l, d, tc, tr, es) = (m + cm, l + cl, d', tc + ctc, tr + ctr, es') /\
    0 <= cm /\ 0 <= cl /\ cm + cl <= Z.of_nat (List.length s) /\
    (all_items counters_ok s -> 0 <= ctc <= ctr).
Proof.
  induction s as [|[k it] s IH]; intros m l d tc tr es.
  - exists 0, 0, 0, 0, d, es. simpl. repeat rewrite Z.add_0_r. repeat split; lia.
  - simpl.
    assert (Hs : all_items counters_ok ((k, it) :: s) -> counters_ok it /\ all_items counters_ok s)
      by (intros H; split; [apply (H k); left; reflexivity | intros k' it' Hin; eapply H; right; eauto]).
    destruct (Z.leb 21 (interval it)); [|destruct (Z.ltb 0 (total_reviews it))];
    match goal with
    | |- exists _ _ _ _ _ _, statistics_loop now s (?a, ?b, ?c, ?e, ?f, ?g) = _ /\ _ =>
        destruct (IH a b c e f g) as (cm & cl & ctc & ctr & d' & es' & -> & H1 & H2 & H3 & H4)
    end;
    match goal with
    | |- exists _ _ _ _ _ _, (?A, ?B, ?D, ?TC, ?TR, ?ES) = _ /\ _ =>
        exists (A - m), (B - l), (TC - tc), (TR - tr), D, ES
    end;
    (split; [tuple6_lia|]);
    (split; [lia|]); (split; [lia|]); (split; [try rewrite Zpos_P_of_succ_nat; try rewrite Nat2Z.inj_succ; lia|]);
    intros Hall; destruct (Hs Hall) as [[Ht [Hc Hi]] Hrest]; specialize (H4 Hrest); lia.
Qed.

Lemma all_items_counters_run ops : all_items counters_ok (run ops []).
Proof.
  apply run_preserves.
  - intros. unfold counters_ok. simpl. lia.
  - intros t1 t2 q it H. apply review_item_counters; auto.
  - intros k it [].
Qed.

(** get_statistics splits the tracked words into mastered, learning and
    new: the three counts are non-negative and add up to total_words,
    which is the number of tracked items (also for an empty scheduler). *)
Theorem statistics_partition :
  forall now s,
    total_words (get_statistics now s) = Z.of_nat (List.length s) /\
    mastered (get_statistics now s) + learning (get_statistics now s) + new (get_statistics now s)
      = total_words (get_statistics now s) /\
    0 <= mastered (get_statistics now s) /\ 0 <= learning (get_statistics now s) /\
    0 <= new (get_statistics now s).
Proof.
  intros now s. destruct s as [|p s']; [simpl; lia|].
  unfold get_statistics.
  destruct (statistics_loop_sums now (p :: s') 0 0 0 0 0 0%Q)
    as (cm & cl & ctc & ctr & d' & es' & -> & H1 & H2 & H3 & _).
  cbn [total_words mastered learning new]. lia.
Qed.

Lemma py_round_0_1000 y : (0 <= y)%Q -> (y <= inject_Z 1000)%Q -> 0 <= py_round y <= 1000.
Proof.
  intros H0 H1. pose proof (py_round_floor y) as R.
  pose proof (Qfloor_resp_le (inject_Z 0) y H0) as F0. rewrite Qfloor_Z in F0.
  pose proof (Qfloor_resp_le y (inject_Z 1000) H1) as F1. rewrite Qfloor_Z in F1.
  destruct (Z.lt_ge_cases (Qfloor y) 1000) as [L|L]; [lia|].
  assert (E : Qfloor y = 1000) by lia.
  unfold py_round. rewrite E.
  assert (C : Qcompare (y - inject_Z 1000) (1 # 2) = Lt).
  { apply (proj1 (Qlt_alt _ _)).
    apply (Qle_lt_trans _ 0); [|reflexivity].
    apply (Qplus_le_l _ _ (inject_Z 1000)).
    ring_simplify. exact H1. }
  rewrite C. lia.
Qed.

(** [round(a / b * 100, 1)] lies in [0, 100] when 0 <= a <= b and b > 0. *)
Lemma percent_bounds a b :
  0 <= a <= b -> 0 < b ->
  (0 <= py_round_digits (inject_Z a / inject_Z b * 100) 1 <= 100)%Q.
Proof.
  intros Hab Hb. destruct b as [|p|p]; try lia.
  unfold py_round_digits. cbv zeta.
  change (Z.pow 10 (Z.of_nat 1)) with 10. change (Z.to_pos 10) with 10%positive.
  assert (Hy : (0 <= inject_Z a / inject_Z (Z.pos p) * 100 * inject_Z 10)%Q /\
               (inject_Z a / inject_Z (Z.pos p) * 100 * inject_Z 10 <= inject_Z 1000)%Q).
  { assert (Hb' : (0 < inject_Z (Z.pos p))%Q) by (unfold Qlt; simpl; lia).
    assert (X0 : (0 <= inject_Z a / inject_Z (Z.pos p))%Q).
    { apply Qle_shift_div_l; auto. rewrite Qmult_0_l. unfold Qle; simpl; lia. }
    assert (X1 : (inject_Z a / inject_Z (Z.pos p) <= 1)%Q).
    { apply Qle_shift_div_r; auto. rewrite Qmult_1_l. unfold Qle; simpl; lia. }
    split.
    - apply Qmult_le_0_compat; [apply Qmult_le_0_compat|]; auto; discriminate.
    - apply (Qle_trans _ (1 * 100 * inject_Z 10)); [|unfold Qle; simpl; lia].
      apply Qmult_le_compat_r; [apply Qmult_le_compat_r|]; auto; discriminate. }
  destruct Hy as [Hy0 Hy1].
  pose proof (py_round_0_1000 _ Hy0 Hy1) as R. revert R.
  generalize (py_round (inject_Z a / inject_Z (Z.pos p) * 100 * inject_Z 10)).
  intros r R. unfold Qle; simpl. split; lia.
Qed.

(** From the empty scheduler, after any sequence of add_word and review
    calls, get_statistics reports a retention rate between 0 and 100. *)
Theorem retention_rate_bounds :
  forall ops now,
    (0 <= retention_rate (get_statistics now (run ops [])) <= 100)%Q.
Proof.
  intros ops now. pose proof (all_items_counters_run ops) as Hc.
  destruct (run ops []) as [|p s'] eqn:E; [simpl; split; discriminate|].
  unfold get_statistics.
  destruct (statistics_loop_sums now (p :: s') 0 0 0 0 0 0%Q)
    as (cm & cl & ctc & ctr & d' & es' & -> & _ & _ & _ & H4).
  specialize (H4 Hc). cbn [retention_rate].
  destruct (Z.ltb_spec 0 (0 + ctr)).
  - apply percent_bounds; lia.
  - split; discriminate.
Qed.

(** get_session_summary on a started session: completed + remaining is
    the queue length, correct + incorrect = completed, and the accuracy
    lies between 0 and 100 (0 while nothing is completed). *)
Theorem session_summary_consistent :
  forall ses, session_ok ses ->
    completed (get_session_summary ses) + remaining (get_session_summary ses)
      = Z.of_nat (List.length (session_items ses)) /\
    correct (get_session_summary ses) + incorrect (get_session_summary ses)
      = completed (get_session_summary ses) /\
    (0 <= accuracy (get_session_summary ses) <= 100)%Q.
Proof.
  intros ses (Hci & Hc & Hi & Hle & Ht & Htr). unfold get_session_summary.
  cbn [completed remaining correct incorrect accuracy].
  split; [lia|]. split; [lia|].
  destruct (Z.ltb_spec 0 (current_index ses)).
  - apply percent_bounds; lia.
  - split; discriminate.
Qed.

Lemma session_summary_consistent_witness :
  session_ok (mkSession [("bal", new_item "bal" "b" "honey" (Some 0%Z))] [] ["bal"; "bal"] 2%Z 2%Z 1%Z 1%Z) /\
  (0 <= accuracy (get_session_summary
        (mkSession [("bal", new_item "bal" "b" "honey" (Some 0%Z))] [] ["bal"; "bal"] 2%Z 2%Z 1%Z 1%Z)) <= 100)%Q.
Proof.
  assert (H : session_ok (mkSession [("bal", new_item "bal" "b" "honey" (Some 0%Z))] [] ["bal"; "bal"] 2%Z 2%Z 1%Z 1%Z)).
  { unfold session_ok; simpl. repeat split; try lia.
    intros wid [<-|[<-|[]]]; discriminate. }
  split; [exact H|]. apply (session_summary_consistent _ H).
Defined.

Lemma get_new_items_loop_firstn s ws : forall n limit,
  get_new_items_loop s ws n limit =
  firstn (Z.to_nat (Z.max 1 (limit - n)))
    (filter (fun w => match lookup (word_key w) s with None => true | Some _ => false end) ws).
Proof.
  induction ws as [|w ws IH]; intros n limit; simpl; [rewrite firstn_nil; reflexivity|].
  destruct (lookup (word_key w) s); [apply IH|].
  destruct (Z.leb_spec limit (n + 1)).
  - replace (Z.to_nat (Z.max 1 (limit - n))) with 1%nat by lia. reflexivity.
  - replace (Z.to_nat (Z.max 1 (limit - n))) with (S (Z.to_nat (Z.max 1 (limit - (n + 1))))) by lia.
    simpl. rewrite IH. reflexivity.
Qed.

(** get_new_items returns the untracked entries of the vocabulary in their
    order, cut to [limit] of them; since the length test comes after the
    append, a limit of 0 or below still yields one entry when there is
    one. *)
Theorem get_new_items_untracked_prefix :
  forall s ws limit,
    get_new_items s ws limit =
    firstn (Z.to_nat (Z.max 1 limit))
      (filter (fun w => match lookup (word_key w) s with None => true | Some _ => false end) ws).
Proof.
  intros s ws limit. unfold get_new_items. rewrite get_new_items_loop_firstn.
  rewrite Z.sub_0_r. reflexivity.
Qed.

Lemma In_lookup_some k it s : In (k, it) s -> lookup k s <> None.
Proof.
  induction s as [|[k0 v0] s IH]; simpl; [tauto|].
  destruct (String.eqb_spec k k0) as [->|Hne]; [discriminate|].
  intros [H|H]; [injection H as -> _; contradiction | auto].
Qed.

Lemma exec_op_keeps_tracked o s k : lookup k s <> None -> lookup k (exec_op o s) <> None.
Proof.
  intros H. destruct (lookup k s) as [it|] eqn:E; [|contradiction].
  destruct (exec_op_counters_le o s k it E) as [it' [-> _]]. discriminate.
Qed.

Lemma submit_answer_step t1 t2 q ses :
  session_ok ses -> store_wf (srs ses) -> in_progress ses = true ->
  exists it,
    lookup (nth (Z.to_nat (current_index ses)) (session_items ses) EmptyString) (srs ses) = Some it /\
    submit_answer t1 t2 q ses =
      inr (Answered (Z.leb QUALITY_THRESHOLD q) (interval (review_item t1 t2 q it))
             (ease_factor (review_item t1 t2 q it))
             (t2 + interval (review_item t1 t2 q it) * DAY)
             (current_index ses + 1, Z.of_nat (List.length (session_items ses))),
           mkSession (exec_op (Review t1 t2 (nth (Z.to_nat (current_index ses)) (session_items ses) EmptyString) q) (srs ses))
             (words_data ses) (session_items ses) (current_index ses + 1) (stats_total ses)
             (if Z.leb QUALITY_THRESHOLD q then stats_correct ses + 1 else stats_correct ses)
             (if Z.leb QUALITY_THRESHOLD q then stats_incorrect ses else stats_incorrect ses + 1)).
Proof.
  intros (Hci & Hc & Hi & Hle & Ht & Htr) Hwf Hp.
  set (wid := nth (Z.to_nat (current_index ses)) (session_items ses) EmptyString).
  assert (Hin : In wid (session_items ses)).
  { apply nth_In. unfold in_progress in Hp. apply Z.ltb_lt in Hp. lia. }
  destruct (lookup wid (srs ses)) as [it|] eqn:E; [|exfalso; apply (Htr wid Hin); auto].
  exists it. split; [reflexivity|].
  unfold submit_answer, exec_op, review. rewrite Hp. cbv beta iota zeta. fold wid.
  rewrite E. reflexivity.
Qed.

Lemma submit_answer_preserves :
  forall t1 t2 q ses,
    session_ok ses -> store_wf (srs ses) ->
    exists r ses',
      submit_answer t1 t2 q ses = inr (r, ses') /\
      session_ok ses' /\ store_wf (srs ses') /\ session_items ses' = session_items ses /\
      (in_progress ses = true ->
         current_index ses' = current_index ses + 1 /\
         exists it it',
           lookup (nth (Z.to_nat (current_index ses)) (session_items ses) EmptyString) (srs ses) = Some it /\
           lookup (nth (Z.to_nat (current_index ses)) (session_items ses) EmptyString) (srs ses') = Some it' /\
           (stats_correct ses' = stats_correct ses + 1 <-> correct_count it' = correct_count it + 1)).
Proof.
  intros t1 t2 q ses Hok Hwf.
  destruct (in_progress ses) eqn:Hp.
  - destruct (submit_answer_step t1 t2 q ses Hok Hwf Hp) as [it [E ->]].
    destruct Hok as (Hci & Hc & Hi & Hle & Ht & Htr).
    do 2 eexists. split; [reflexivity|]. cbn [srs session_items current_index stats_correct stats_incorrect stats_total].
    assert (Hlt : current_index ses < Z.of_nat (List.length (session_items ses)))
      by (unfold in_progress in Hp; apply Z.ltb_lt in Hp; exact Hp).
    split.
    + unfold session_ok; cbn [srs session_items current_index stats_correct stats_incorrect stats_total].
      destruct (Z.leb QUALITY_THRESHOLD q); (split; [lia|]); (split; [lia|]); (split; [lia|]);
        (split; [lia|]); (split; [lia|]);
        intros w Hw; apply exec_op_keeps_tracked, Htr; auto.
    + split; [apply exec_op_store_wf; auto|]. split; [reflexivity|].
      intros _. split; [reflexivity|].
      exists it, (review_item t1 t2 q it). split; [exact E|].
      split; [apply exec_review_lookup; auto|].
      assert (Hcl : 3 <= q <-> 3 <= clamp_quality q) by (unfold clamp_quality; lia).
      destruct (Z.lt_ge_cases (clamp_quality q) 3) as [Hq|Hq].
      * destruct (review_item_failure t1 t2 q it Hq) as (_ & _ & C & _).
        replace (Z.leb QUALITY_THRESHOLD q) with false
          by (symmetry; apply Z.leb_gt; unfold QUALITY_THRESHOLD; lia).
        rewrite C. lia.
      * destruct (review_item_success t1 t2 q it Hq) as (_ & _ & C & _).
        replace (Z.leb QUALITY_THRESHOLD q) with true
          by (symmetry; apply Z.leb_le; unfold QUALITY_THRESHOLD; lia).
        rewrite C. lia.
  - exists NoMoreItems, ses. unfold submit_answer. rewrite Hp. simpl.
    split; [reflexivity|]. split; [exact Hok|]. split; [exact Hwf|].
    split; [reflexivity|]. discriminate.
Qed.

(** On a started session whose dict is well formed, submit_answer never
    raises: when the session is in progress it reviews the current item,
    moves the cursor by one and counts the answer as correct exactly when
    the scheduler's review took its success branch (quality >= 3); in any
    case the session invariant (correct + incorrect = cursor <= queue
    length, every queued id tracked) and the dict's well-formedness are
    kept and the queue is unchanged. *)
Theorem submit_answer_invariant :
  forall t1 t2 q ses,
    session_ok ses -> store_wf (srs ses) ->
    exists r ses',
      submit_answer t1 t2 q ses = inr (r, ses') /\
      session_ok ses' /\ store_wf (srs ses') /\ session_items ses' = session_items ses /\
      (in_progress ses = true ->
         current_index ses' = current_index ses + 1 /\
         exists it it',
           lookup (nth (Z.to_nat (current_index ses)) (session_items ses) EmptyString) (srs ses) = Some it /\
           lookup (nth (Z.to_nat (current_index ses)) (session_items ses) EmptyString) (srs ses') = Some it' /\
           (stats_correct ses' = stats_correct ses + 1 <-> correct_count it' = correct_count it + 1)).
Proof. exact submit_answer_preserves. Qed.


Lemma submit_all_progress answers : forall ses,
  session_ok ses -> store_wf (srs ses) ->
  current_index ses + Z.of_nat (List.length answers) <= Z.of_nat (List.length (session_items ses)) ->
  exists ses', submit_all answers ses = inr ses' /\ session_ok ses' /\ store_wf (srs ses') /\
    session_items ses' = session_items ses /\
    current_index ses' = current_index ses + Z.of_nat (List.length answers).
Proof.
  induction answers as [|[[t1 t2] q] rest IH]; intros ses Hok Hwf Hlen.
  - exists ses. simpl. split; [reflexivity|]. split; [exact Hok|]. split; [exact Hwf|].
    split; [reflexivity|]. lia.
  - assert (Hp : in_progress ses = true).
    { unfold in_progress. apply Z.ltb_lt. simpl List.length in Hlen. lia. }
    destruct (submit_answer_preserves t1 t2 q ses Hok Hwf)
      as (r & ses1 & E & Hok1 & Hwf1 & Hq1 & Hstep).
    destruct (Hstep Hp) as [Hci _].
    destruct (IH ses1 Hok1 Hwf1) as (ses' & E' & Hok' & Hwf' & Hq' & Hci').
    { rewrite Hq1, Hci. simpl List.length in Hlen. lia. }
    exists ses'. simpl. rewrite E. split; [exact E'|].
    split; [exact Hok'|]. split; [exact Hwf'|]. split; [congruence|].
    rewrite Hci', Hci. simpl List.length. lia.
Qed.

(** A started session (cursor 0, invariant holding) is exhausted by
    exactly as many submit_answer calls as it has queued items: none of
    them raises, afterwards the session is complete, get_current_item
    returns None, and the summary shows every item completed, none
    remaining, and correct + incorrect equal to the queue length. *)
Theorem session_exhaustion :
  forall answers ses,
    session_ok ses -> store_wf (srs ses) -> current_index ses = 0 ->
    List.length answers = List.length (session_items ses) ->
    exists ses', submit_all answers ses = inr ses' /\
      in_progress ses' = false /\ get_current_item ses' = None /\
      completed (get_session_summary ses') = Z.of_nat (List.length (session_items ses)) /\
      remaining (get_session_summary ses') = 0 /\
      correct (get_session_summary ses') + incorrect (get_session_summary ses')
        = Z.of_nat (List.length (session_items ses)).
Proof.
  intros answers ses Hok Hwf H0 Hlen.
  destruct (submit_all_progress answers ses Hok Hwf) as (ses' & E & Hok' & _ & Hq & Hci).
  { rewrite H0, Hlen. lia. }
  rewrite H0, Hlen in Hci.
  assert (Hp : in_progress ses' = false)
    by (unfold in_progress; apply Z.ltb_ge; rewrite Hq; lia).
  exists ses'. split; [exact E|]. split; [exact Hp|].
  split; [unfold get_current_item; rewrite Hp; reflexivity|].
  destruct Hok' as (Hc & _).
  unfold get_session_summary; cbn [completed remaining correct incorrect].
  rewrite Hq. lia.
Qed.

Lemma session_exhaustion_witness :
  session_ok (mkSession [("bal", new_item "bal" "b" "honey" (Some 0)); ("tau", new_item "tau" "t" "mountain" (Some 0))]
                [] ["bal"; "tau"] 0 2 0 0) /\
  exists ses', submit_all [(1, 1, 5); (1, 1, 2)]
      (mkSession [("bal", new_item "bal" "b" "honey" (Some 0)); ("tau", new_item "tau" "t" "mountain" (Some 0))]
                 [] ["bal"; "tau"] 0 2 0 0) = inr ses' /\ in_progress ses' = false.
Proof.
  assert (Hok : session_ok (mkSession [("bal", new_item "bal" "b" "honey" (Some 0)); ("tau", new_item "tau" "t" "mountain" (Some 0))]
                [] ["bal"; "tau"] 0 2 0 0)).
  { unfold session_ok; simpl. repeat split; try lia.
    intros wid [<-|[<-|[]]]; discriminate. }
  split; [exact Hok|].
  destruct (session_exhaustion [(1, 1, 5); (1, 1, 2)] _ Hok) as (ses' & E & P & _).
  - split.
    + simpl. repeat constructor; simpl; intuition discriminate.
    + intros k it [H|[H|[]]]; injection H as <- <-; reflexivity.
  - reflexivity.
  - reflexivity.
  - exists ses'. split; assumption.
Defined.



Lemma In_firstn_incl {A} n (l : list A) x : In x (firstn n l) -> In x l.
Proof.
  intros H. rewrite <- (firstn_skipn n l). apply in_or_app. left. exact H.
Qed.

Lemma get_due_items_from_store now lim s it :
  In it (get_due_items now lim s) -> exists k, In (k, it) s.
Proof.
  intros H.
  assert (H' : In it (map fst (sort_by_key (collect_due now s)))).
  { unfold get_due_items in H. destruct lim as [l|]; auto.
    destruct (Z.eqb l 0); auto. unfold py_take in H.
    destruct (Z.leb 0 l); eapply In_firstn_incl; eauto. }
  assert (H2 : In it (map fst (collect_due now s))).
  { eapply Permutation_in; [|exact H']. apply Permutation_map, sort_by_key_perm. }
  rewrite collect_due_items in H2. apply filter_In in H2 as [H2 _].
  apply in_map_iff in H2 as [[k it0] [Heq Hin]]. simpl in Heq. subst it0. eauto.
Qed.

Lemma add_word_tracks now wid b e s : lookup wid (exec_op (AddItem now wid b e) s) <> None.
Proof.
  simpl. unfold add_word. destruct (lookup wid s) eqn:E; simpl; [rewrite E; discriminate|].
  rewrite lookup_app_r by exact E. simpl. rewrite String.eqb_refl. discriminate.
Qed.

Lemma add_new_words_spec now ws : forall s queue,
  store_wf s ->
  store_wf (fst (add_new_words now ws s queue)) /\
  snd (add_new_words now ws s queue) = queue ++ map word_key ws /\
  (forall k, lookup k s <> None -> lookup k (fst (add_new_words now ws s queue)) <> None) /\
  (forall w, In w ws -> lookup (word_key w) (fst (add_new_words now ws s queue)) <> None).
Proof.
  induction ws as [|w ws IH]; intros s queue Hwf.
  - simpl. rewrite app_nil_r. split; [exact Hwf|]. split; [reflexivity|].
    split; [auto|]. intros w [].
  - simpl.
    pose proof (exec_op_store_wf (AddItem now (word_key w) (w_bashkir w) (w_english w)) s Hwf) as Hwf1.
    pose proof (add_word_tracks now (word_key w) (w_bashkir w) (w_english w) s) as Ht.
    simpl in Hwf1, Ht.
    destruct (add_word now (word_key w) (w_bashkir w) (w_english w) s) as [it0 s1] eqn:A.
    simpl in Hwf1, Ht.
    destruct (lookup (word_key w) s1) as [it|] eqn:L; [|contradiction].
    assert (Hid : word_id it = word_key w)
      by (apply (proj2 Hwf1), lookup_Some_In; exact L).
    destruct (IH s1 (queue ++ [word_id it]) Hwf1) as (W & Q & K & N).
    split; [exact W|]. split; [rewrite Q, Hid, <- app_assoc; reflexivity|]. split.
    + intros k Hk. apply K.
      pose proof (exec_op_keeps_tracked (AddItem now (word_key w) (w_bashkir w) (w_english w)) s k Hk) as Hk1.
      simpl in Hk1. rewrite A in Hk1. exact Hk1.
    + intros w' [<-|Hw']; [apply K; rewrite L; discriminate | apply N; auto].
Qed.

(** start_session on a well-formed dict queues the ids of the due items
    (as get_due_items(limit=review_words) returns them) followed by the
    keys of the new vocabulary entries (as get_new_items returns them),
    adds those entries to the scheduler, resets the cursor to 0 and the
    counters, keeps the dict well formed, and leaves a session whose
    invariant holds with every queued id tracked. *)
Theorem start_session_queue :
  forall now new_words review_words ses,
    store_wf (srs ses) ->
    session_items (snd (start_session now new_words review_words ses)) =
      map word_id (get_due_items now (Some review_words) (srs ses)) ++
      map word_key (get_new_items (srs ses) (map snd (words_data ses)) new_words) /\
    current_index (snd (start_session now new_words review_words ses)) = 0 /\
    store_wf (srs (snd (start_session now new_words review_words ses))) /\
    session_ok (snd (start_session now new_words review_words ses)).
Proof.
  intros now nw rw ses Hwf. unfold start_session.
  set (due := get_due_items now (Some rw) (srs ses)).
  set (nws := get_new_items (srs ses) (map snd (words_data ses)) nw).
  destruct (add_new_words_spec now nws (srs ses) (map word_id due) Hwf) as (W & Q & K & N).
  destruct (add_new_words now nws (srs ses) (map word_id due)) as [s' queue] eqn:A.
  simpl in W, Q, K, N. simpl.
  split; [exact Q|]. split; [reflexivity|]. split; [exact W|].
  unfold session_ok; cbn [srs session_items current_index stats_correct stats_incorrect stats_total].
  split; [reflexivity|]. split; [lia|]. split; [lia|]. split; [lia|]. split; [reflexivity|].
  intros wid Hin. rewrite Q in Hin. apply in_app_or in Hin as [Hin|Hin].
  - apply in_map_iff in Hin as [it [<- Hit]].
    destruct (get_due_items_from_store _ _ _ _ Hit) as [k Hk].
    rewrite ((proj2 Hwf) k it Hk). apply K. eapply In_lookup_some; eauto.
  - apply in_map_iff in Hin as [w [<- Hw]]. apply N; auto.
Qed.

Lemma start_session_queue_witness :
  let ses := init_session
    [("d1", new_item "d1" "a" "x" (Some 0)); ("d2", new_item "d2" "b" "y" (Some 1));
     ("d3", new_item "d3" "c" "z" None); ("f1", new_item "f1" "d" "w" (Some 99))]
    [mkWord (Some "n1") "e1" "g1"; mkWord (Some "n2") "e2" "g2"; mkWord None "e3" "g3";
     mkWord (Some "n4") "e4" "g4"; mkWord (Some "n5") "e5" "g5"; mkWord (Some "n6") "e6" "g6";
     mkWord (Some "d1") "a" "x"] in
  store_wf (srs ses) /\
  session_ok (snd (start_session 10 5 20 ses)) /\
  List.length (session_items (snd (start_session 10 5 20 ses))) = 8%nat.
Proof.
  intros ses.
  assert (Hwf : store_wf (srs ses)).
  { split.
    - simpl. repeat constructor; simpl; intuition discriminate.
    - intros k it H. simpl in H.
      destruct H as [H|[H|[H|[H|[]]]]]; injection H as <- <-; reflexivity. }
  split; [exact Hwf|]. split.
  - apply (proj2 (proj2 (proj2 (start_session_queue 10 5 20 ses Hwf)))).
  - vm_compute. reflexivity.
Defined.

Lemma submit_answer_invariant_witness :
  exists r ses',
    submit_answer 1 1 4 (mkSession [("bal", new_item "bal" "b" "honey" (Some 0))] [] ["bal"] 0 1 0 0)
      = inr (r, ses') /\ session_ok ses'.
Proof.
  destruct (submit_answer_invariant 1 1 4
              (mkSession [("bal", new_item "bal" "b" "honey" (Some 0))] [] ["bal"] 0 1 0 0))
    as (r & ses' & E & Hok & _).
  - unfold session_ok; simpl. repeat split; try lia. intros wid [<-|[]]; discriminate.
  - split; [simpl; repeat constructor; simpl; tauto|].
    intros k it [H|[]]; injection H as <- <-; reflexivity.
  - exists r, ses'. split; assumption.
Defined.

Lemma get_due_items_positive_limit_witness :
  get_due_items 10 (Some 1) [("bal", new_item "bal" "b" "honey" (Some 5)); ("tau", new_item "tau" "t" "mountain" None)]
  = firstn 1 (get_due_items 10 None [("bal", new_item "bal" "b" "honey" (Some 5)); ("tau", new_item "tau" "t" "mountain" None)]).
Proof.
  apply (get_due_items_positive_limit 10 1
           [("bal", new_item "bal" "b" "honey" (Some 5)); ("tau", new_item "tau" "t" "mountain" None)]).
  lia.
Defined.
